(** * pybot-twitch: the chat bot of [bot.py], embedded and verified

    The bot keeps two SQLite tables ([tokens] and [responses]), validates
    OAuth token pairs with the platform, and answers chat commands.  This
    file embeds [Bot] and [MyComponent] as functions over an explicit world
    state with Python's exceptions as an error result, and checks the
    properties the specification states about them. *)

From Stdlib Require Import String Ascii List Bool.
Import ListNotations.
Local Open Scope string_scope.
Local Open Scope list_scope.

(** ** Exceptions and results *)

(** The exceptions that the code of [bot.py] can meet.  All of them derive
    from Python's [Exception], so [except Exception] catches every one. *)
Inductive exn : Type :=
| InvalidTokenException            (* twitchio: the platform rejected a token *)
| ProgrammingError                 (* sqlite3: wrong use of the API *)
| OperationalError                 (* sqlite3: the text is no SQL statement *)
| NameError (name : string)        (* a local name was never bound *)
| IndexError                       (* list index out of range *)
| GuardFailure                     (* twitchio: a command guard said no *)
| MissingRequiredArgument          (* twitchio: a command argument is absent *)
| CommandNotFound (name : string). (* twitchio: no command has this name *)

Inductive result (A : Type) : Type :=
| Ok (a : A)
| Raise (e : exn).
Arguments Ok {A} a.
Arguments Raise {A} e.

Definition is_ok {A} (r : result A) : bool :=
  match r with Ok _ => true | Raise _ => false end.

(** ** The SQLite layer

    A table is the list of its rows in rowid order, which is the order in
    which [SELECT *] returns them.  The first column is the PRIMARY KEY. *)
Module Sql.
Section Table.
Variable R : Type.
Variable pk : R -> string.

(** [INSERT INTO t VALUES (...) ON CONFLICT(pk) DO UPDATE SET ...]:
    a row with the key of [excluded] is rewritten in place by the SET
    clause, which sees the stored [row] and the [excluded] one; otherwise
    [excluded] is appended. *)
Fixpoint upsert (do_update : R -> R -> R) (excluded : R) (t : list R) : list R :=
  match t with
  | [] => [excluded]
  | row :: t' =>
      if String.eqb (pk row) (pk excluded)
      then do_update row excluded :: t'
      else row :: upsert do_update excluded t'
  end.

(** The pieces a query text falls into at its semicolons. *)
Inductive statement : Type :=
| InsertOnConflict (do_update : R -> R -> R)
| Fragment (text : string).   (* text that is no SQL statement *)

(** [connection.execute(query, params)].  Python's sqlite3 prepares the
    first statement and refuses the call, before running anything, when
    other text follows it ("You can only execute one statement at a
    time."). *)
Definition execute (query : list statement) (params : R) (t : list R)
  : result (list R) :=
  match query with
  | [] => Ok t
  | [InsertOnConflict do_update] => Ok (upsert do_update params t)
  | [Fragment _] => Raise OperationalError
  | _ :: _ :: _ => Raise ProgrammingError
  end.

(** Rows of [t] stored under key [k]. *)
Definition select_where (k : string) (t : list R) : list R :=
  filter (fun row => String.eqb (pk row) k) t.

(** The PRIMARY KEY constraint. *)
Definition unique_keys (t : list R) : Prop := NoDup (map pk t).
End Table.
Arguments upsert {R} pk do_update excluded t.
Arguments InsertOnConflict {R} do_update.
Arguments Fragment {R} text.
Arguments execute {R} pk query params t.
Arguments select_where {R} pk k t.
Arguments unique_keys {R} pk t.
End Sql.

(** ** Rows of the two tables *)

(** [tokens(user_id TEXT PRIMARY KEY, token TEXT NOT NULL, refresh TEXT NOT NULL)] *)
Record token_row : Type := TokenRow {
  user_id : string;
  token : string;
  refresh : string
}.

(** [responses(command TEXT PRIMARY KEY, response TEXT NOT NULL)] *)
Record response_row : Type := ResponseRow {
  command : string;
  response : string
}.

(** ** Chat and log output *)

Inductive chat_out : Type :=
| Reply (text : string)   (* ctx.reply *)
| Send (text : string).   (* ctx.send *)

Inductive log_record : Type :=
| Info (msg : string)
| Warning (e : exn)
| Error (e : exn)
| Stdout (line : string).

(** ** The world the bot runs in *)

Record World : Type := MkWorld {
  tokens : list token_row;        (* tokens.db *)
  responses : list response_row;  (* responses.db *)
  managed : list token_row;       (* pairs the session manager holds, in call order *)
  sent : list chat_out;           (* chat messages sent, oldest first *)
  log : list log_record           (* log and console output, oldest first *)
}.

Definition set_tokens (t : list token_row) (w : World) : World :=
  MkWorld t (responses w) (managed w) (sent w) (log w).
Definition set_responses (t : list response_row) (w : World) : World :=
  MkWorld (tokens w) t (managed w) (sent w) (log w).
Definition add_managed (r : token_row) (w : World) : World :=
  MkWorld (tokens w) (responses w) (managed w ++ [r]) (sent w) (log w).
Definition add_sent (m : chat_out) (w : World) : World :=
  MkWorld (tokens w) (responses w) (managed w) (sent w ++ [m]) (log w).
Definition add_log (l : log_record) (w : World) : World :=
  MkWorld (tokens w) (responses w) (managed w) (sent w) (log w ++ [l]).

(** ** Coroutines: state passing with exceptions

    An exception leaves the world as it was when it was raised: nothing in
    [bot.py] opens a transaction, so every completed write stays. *)
Definition M (A : Type) : Type := World -> result A * World.

Definition ret {A} (a : A) : M A := fun w => (Ok a, w).
Definition raise {A} (e : exn) : M A := fun w => (Raise e, w).
Definition bind {A B} (m : M A) (k : A -> M B) : M B :=
  fun w =>
    match m w with
    | (Ok a, w') => k a w'
    | (Raise e, w') => (Raise e, w')
    end.
(** [try: body  except Exception as e: handler] *)
Definition try_except {A} (body : M A) (handler : exn -> M A) : M A :=
  fun w =>
    match body w with
    | (Ok a, w') => (Ok a, w')
    | (Raise e, w') => handler e w'
    end.

Declare Scope bot_scope.
Delimit Scope bot_scope with bot.
Notation "x <- m ;; k" := (bind m (fun x => k))
  (at level 61, m at next level, right associativity) : bot_scope.
Notation "m ;; k" := (bind m (fun _ => k))
  (at level 61, right associativity) : bot_scope.
Local Open Scope bot_scope.

(** [for x in xs: body(x)] *)
Fixpoint for_each {A} (xs : list A) (body : A -> M unit) : M unit :=
  match xs with
  | [] => ret tt
  | x :: xs' => body x ;; for_each xs' body
  end.

Definition LOGGER_info (msg : string) : M unit :=
  fun w => (Ok tt, add_log (Info msg) w).
Definition LOGGER_warning (e : exn) : M unit :=
  fun w => (Ok tt, add_log (Warning e) w).
Definition LOGGER_error (e : exn) : M unit :=
  fun w => (Ok tt, add_log (Error e) w).
Definition print (line : string) : M unit :=
  fun w => (Ok tt, add_log (Stdout line) w).

(** ** class Bot *)
Module Bot.
Section Upstream.
(** The platform's identity service: the user id a token pair validates
    to, or [None] when the pair is rejected. *)
Variable validate : string -> string -> option string.

(** [commands.Bot.add_token]: validates the pair upstream and, when it is
    accepted, hands it to the session manager. *)
Definition super_add_token (token refresh : string) : M string :=
  fun w =>
    match validate token refresh with
    | Some uid => (Ok uid, add_managed (TokenRow uid token refresh) w)
    | None => (Raise InvalidTokenException, w)
    end.

(** The query text of [add_token]: one statement. *)
Definition add_token_query : list (Sql.statement token_row) :=
  [ Sql.InsertOnConflict (fun row excluded =>
      TokenRow (user_id row) (token excluded) (refresh excluded)) ].

Definition tokens_execute (query : list (Sql.statement token_row))
    (params : token_row) : M unit :=
  fun w =>
    match Sql.execute user_id query params (tokens w) with
    | Ok t => (Ok tt, set_tokens t w)
    | Raise e => (Raise e, w)
    end.

Definition add_token (token refresh : string) : M string :=
  resp <- super_add_token token refresh ;;
  tokens_execute add_token_query (TokenRow resp token refresh) ;;
  LOGGER_info ("Added token to the database for user: " ++ resp) ;;
  ret resp.

Definition tokens_fetchall : M (list token_row) :=
  fun w => (Ok (tokens w), w).

Definition load_tokens (path : option string) : M unit :=
  rows <- tokens_fetchall ;;
  for_each rows (fun row => _ <- add_token (token row) (refresh row) ;; ret tt).
End Upstream.

(** The query text of [add_response].  The semicolon after
    [command = excluded.command] ends the INSERT, so the text holds two
    pieces: an upsert whose SET clause assigns the key column only, and
    the line [response = excluded.response;]. *)
Definition add_response_query : list (Sql.statement response_row) :=
  [ Sql.InsertOnConflict (fun row excluded =>
      ResponseRow (command excluded) (response row));
    Sql.Fragment "response = excluded.response;" ].

Definition responses_execute (query : list (Sql.statement response_row))
    (params : response_row) : M unit :=
  fun w =>
    match Sql.execute command query params (responses w) with
    | Ok t => (Ok tt, set_responses t w)
    | Raise e => (Raise e, w)
    end.

(** The body of [add_response] around its database call: the call, the
    log line, and [return resp], which reads a name that [add_response]
    never binds. *)
Definition add_response_around (db_call : M unit) : M unit :=
  db_call ;;
  LOGGER_info "Added new command" ;;
  raise (NameError "resp").

Definition add_response (command response : string) : M unit :=
  add_response_around
    (responses_execute add_response_query (ResponseRow command response)).

Definition responses_fetchall : M (list response_row) :=
  fun w => (Ok (responses w), w).

Definition load_responses (path : option string) : M unit :=
  rows <- responses_fetchall ;;
  for_each rows (fun row => add_response (command row) (response row)).
End Bot.

(** ** The command framework, as [MyComponent] uses it *)

Record Chatter : Type := MkChatter {
  name : string;
  mention : string;
  elevated : bool      (* broadcaster or moderator of the channel *)
}.

Record ChatMessage : Type := MkChatMessage {
  broadcaster : string;
  chatter : Chatter;
  text : string
}.

(** [commands.Context]: the message that invoked the command. *)
Record Context : Type := MkContext {
  message : ChatMessage
}.

Definition ctx_chatter (ctx : Context) : Chatter := chatter (message ctx).
Definition ctx_reply (ctx : Context) (text : string) : M unit :=
  fun w => (Ok tt, add_sent (Reply text) w).
Definition ctx_send (ctx : Context) (text : string) : M unit :=
  fun w => (Ok tt, add_sent (Send text) w).

(** [s.split(' ', 1)]: cut at the first space; no space, one piece. *)
Fixpoint split_space_once (s : string) : list string :=
  match s with
  | EmptyString => [""]
  | String c s' =>
      if Ascii.eqb c " "%char then [""; s']
      else match split_space_once s' with
           | hd :: tl => String c hd :: tl
           | [] => [String c ""]
           end
  end.

(** [xs[i]] *)
Definition index {A} (xs : list A) (i : nat) : M A :=
  match nth_error xs i with
  | Some x => ret x
  | None => raise IndexError
  end.

(** ** class MyComponent *)
Module MyComponent.
Definition event_message (payload : ChatMessage) : M unit :=
  print ("[" ++ broadcaster payload ++ "] - " ++ name (chatter payload)
         ++ ": " ++ text payload).

Definition hi (ctx : Context) : M unit :=
  ctx_reply ctx ("Hello " ++ mention (ctx_chatter ctx) ++ "!").

Definition socials (ctx : Context) : M unit :=
  ctx_send ctx "https://bsky.app/profile/tcurls.net".

Definition addcommand (ctx : Context) (content : string) : M unit :=
  let content_array := split_space_once content in
  command <- index content_array 0 ;;
  response <- index content_array 1 ;;
  try_except
    (Bot.add_response command response)
    (fun e => LOGGER_warning e ;; ctx_send ctx "Failed to add command! :(").

(** The commands that the decorators register. *)
Inductive static_command : Type := Hi | Socials | Addcommand.

(** [@commands.command(aliases=["hello", "howdy", "hey"])] on [hi],
    [@commands.group] on [socials], [@commands.command()] on
    [addcommand]: the names the bot answers to. *)
Definition commands (name : string) : option static_command :=
  if (name =? "hi") || (name =? "hello") || (name =? "howdy") || (name =? "hey")
  then Some Hi
  else if name =? "socials" then Some Socials
  else if name =? "addcommand" then Some Addcommand
  else None.

(** [@commands.is_elevated()] *)
Definition is_elevated (ctx : Context) : bool := elevated (ctx_chatter ctx).

(** The message [!name content] reaches the command of that name: guards
    first, then the arguments ([*, content: str] takes the rest of the
    line and must be there), then the body. *)
Definition invoke (ctx : Context) (name content : string) : M unit :=
  match commands name with
  | Some Hi => hi ctx
  | Some Socials => socials ctx
  | Some Addcommand =>
      if is_elevated ctx then
        if content =? "" then raise MissingRequiredArgument
        else addcommand ctx content
      else raise GuardFailure
  | None => raise (CommandNotFound name)
  end.

(** An exception that leaves a command goes to the framework's
    [event_command_error], which [bot.py] does not override: it is
    logged, and nothing is said in chat. *)
Definition process_commands (ctx : Context) (name content : string) : M unit :=
  try_except (invoke ctx name content) LOGGER_error.
End MyComponent.

(** ** Vocabulary of the statements *)

(** The world right after [add_token token refresh] went through for a
    pair that validates to [uid]. *)
Definition after_add_token (uid tok ref : string) (w : World) : World :=
  add_log (Info ("Added token to the database for user: " ++ uid))
    (set_tokens
       (Sql.upsert user_id
          (fun row excluded => TokenRow (user_id row) (token excluded) (refresh excluded))
          (TokenRow uid tok ref) (tokens w))
       (add_managed (TokenRow uid tok ref) w)).

(** The pairs among [rows] that the platform accepts, each under the user
    id it validates to. *)
Definition accepted (validate : string -> string -> option string)
    (rows : list token_row) : list token_row :=
  flat_map (fun row =>
              match validate (token row) (refresh row) with
              | Some uid => [TokenRow uid (token row) (refresh row)]
              | None => []
              end) rows.

(** A platform that knows one live token, of user 2, and rejects the rest. *)
Definition one_live_token (tok ref : string) : option string :=
  if tok =? "live" then Some "2" else None.

(** A platform that accepts two token pairs of user 7. *)
Definition rotating_user (tok ref : string) : option string :=
  if (tok =? "old") || (tok =? "new") then Some "7" else None.

Definition empty_world : World := MkWorld [] [] [] [] [].

(** A response table that already answers [foo] with [baz]. *)
Definition foo_baz_world : World :=
  MkWorld [] [ResponseRow "foo" "baz"] [] [] [].

(** A response table with one dynamic command, [lurk]. *)
Definition lurk_world : World :=
  MkWorld [] [ResponseRow "lurk" "Thanks for lurking!"] [] [] [].

(** A message [text] from a plain viewer, and from a moderator. *)
Definition viewer_ctx (text : string) : Context :=
  MkContext (MkChatMessage "tcurls" (MkChatter "ann" "@Ann" false) text).
Definition moderator_ctx (text : string) : Context :=
  MkContext (MkChatMessage "tcurls" (MkChatter "bob" "@Bob" true) text).

(** The tokens table [t] after every row of [rows] that the platform
    accepts has been upserted under the user id its pair validates to. *)
Definition written_back (validate : string -> string -> option string)
    (rows t : list token_row) : list token_row :=
  fold_left (fun t row =>
               match validate (token row) (refresh row) with
               | Some uid =>
                   Sql.upsert user_id
                     (fun row excluded =>
                        TokenRow (user_id row) (token excluded) (refresh excluded))
                     (TokenRow uid (token row) (refresh row)) t
               | None => t
               end) rows t.

(** Whether the platform accepts every pair among [rows]. *)
Definition all_accepted (validate : string -> string -> option string)
    (rows : list token_row) : bool :=
  forallb (fun row =>
             match validate (token row) (refresh row) with
             | Some _ => true
             | None => false
             end) rows.

(** ** The database files at start-up

    Before [setup_database] and [setup_responses_database] have run, a
    table may not exist yet: [None] is a file without the table. *)
Record Files : Type := MkFiles {
  tokens_db : option (list token_row);        (* table tokens of tokens.db *)
  responses_db : option (list response_row)   (* table responses of responses.db *)
}.

(** [CREATE TABLE IF NOT EXISTS t(...)] *)
Definition create_table_if_not_exists {R} (table : option (list R))
  : option (list R) :=
  match table with
  | Some rows => Some rows
  | None => Some []
  end.

Definition setup_database (f : Files) : Files :=
  MkFiles (create_table_if_not_exists (tokens_db f)) (responses_db f).

Definition setup_responses_database (f : Files) : Files :=
  MkFiles (tokens_db f) (create_table_if_not_exists (responses_db f)).

(** The two calls of [runner] that precede [bot.start()]. *)
Definition runner_setup (f : Files) : Files :=
  setup_responses_database (setup_database f).

(** The rows of a table, none when the table is not there. *)
Definition rows_of {R} (table : option (list R)) : list R :=
  match table with
  | Some rows => rows
  | None => []
  end.

(** * Properties *)

(** ** The monad *)

Lemma bind_ok {A B} (m : M A) (k : A -> M B) w a w' :
  m w = (Ok a, w') -> bind m k w = k a w'.
Proof. intros H. unfold bind. rewrite H. reflexivity. Qed.

(** A body whose rest never returns never returns, whatever runs first. *)
Lemma bind_never_returns {A B} (m : M A) (k : A -> M B) :
  (forall a w, is_ok (fst (k a w)) = false) ->
  forall w, is_ok (fst (bind m k w)) = false.
Proof.
  intros Hk w. unfold bind. destruct (m w) as [[a | e] w'].
  - apply Hk.
  - reflexivity.
Qed.

Lemma for_each_app {A} (xs ys : list A) (body : A -> M unit) w :
  for_each (xs ++ ys) body w =
  bind (for_each xs body) (fun _ => for_each ys body) w.
Proof.
  revert w. induction xs as [| x xs IH]; intros w; simpl.
  - reflexivity.
  - unfold bind in *. destruct (body x w) as [[[] | e] w1].
    + apply IH.
    + reflexivity.
Qed.

(** ** Upserts *)
Module SqlFacts.
Section Table.
Context {R : Type}.
Variable pk : R -> string.
Variable do_update : R -> R -> R.

Lemma upsert_absent excluded t :
  ~ In (pk excluded) (map pk t) ->
  Sql.upsert pk do_update excluded t = t ++ [excluded].
Proof.
  induction t as [| row t IH]; simpl; intros Hnin.
  - reflexivity.
  - destruct (String.eqb_spec (pk row) (pk excluded)) as [Heq | Hne].
    + exfalso. apply Hnin. left. exact Heq.
    + rewrite IH; [reflexivity |]. intros Hin. apply Hnin. right. exact Hin.
Qed.

(** The SET clause of both queries leaves the stored key in place. *)
Hypothesis do_update_key :
  forall row excluded, pk row = pk excluded -> pk (do_update row excluded) = pk row.

Lemma upsert_present_keys excluded t :
  In (pk excluded) (map pk t) ->
  map pk (Sql.upsert pk do_update excluded t) = map pk t.
Proof.
  induction t as [| row t IH]; simpl; intros Hin.
  - contradiction.
  - destruct (String.eqb_spec (pk row) (pk excluded)) as [Heq | Hne]; simpl.
    + rewrite do_update_key by exact Heq. reflexivity.
    + destruct Hin as [Hhd | Htl]; [contradiction |].
      rewrite IH by exact Htl. reflexivity.
Qed.

Lemma upsert_unique_keys excluded t :
  Sql.unique_keys pk t -> Sql.unique_keys pk (Sql.upsert pk do_update excluded t).
Proof.
  unfold Sql.unique_keys. intros Hnd.
  destruct (in_dec string_dec (pk excluded) (map pk t)) as [Hin | Hnin].
  - rewrite upsert_present_keys by exact Hin. exact Hnd.
  - rewrite upsert_absent by exact Hnin.
    rewrite map_app. simpl.
    apply NoDup_app; [exact Hnd | repeat constructor; intros [] |].
    intros k Hk [Hk' | []]. subst k. contradiction.
Qed.

Lemma select_where_absent k t :
  ~ In k (map pk t) -> Sql.select_where pk k t = [].
Proof.
  induction t as [| row t IH]; simpl; intros Hnin.
  - reflexivity.
  - destruct (String.eqb_spec (pk row) k) as [Heq | Hne].
    + exfalso. apply Hnin. left. exact Heq.
    + apply IH. intros Hin. apply Hnin. right. exact Hin.
Qed.

(** When the SET clause assigns every other column, the one row under the
    key is the excluded row after the upsert. *)
Lemma select_where_upsert excluded t :
  (forall row, pk row = pk excluded -> do_update row excluded = excluded) ->
  Sql.unique_keys pk t ->
  Sql.select_where pk (pk excluded) (Sql.upsert pk do_update excluded t) = [excluded].
Proof.
  unfold Sql.unique_keys. intros Hall.
  induction t as [| row t IH]; simpl; intros Hnd.
  - rewrite String.eqb_refl. reflexivity.
  - inversion Hnd as [| k ks Hnin Hnd']; subst.
    destruct (String.eqb_spec (pk row) (pk excluded)) as [Heq | Hne]; simpl.
    + rewrite Hall by exact Heq. rewrite String.eqb_refl.
      f_equal. apply select_where_absent. rewrite <- Heq. exact Hnin.
    + destruct (String.eqb_spec (pk row) (pk excluded)); [contradiction |].
      apply IH. exact Hnd'.
Qed.

(** Writing a stored row back changes nothing. *)
Lemma upsert_stored row t :
  do_update row row = row ->
  Sql.unique_keys pk t -> In row t ->
  Sql.upsert pk do_update row t = t.
Proof.
  unfold Sql.unique_keys. intros Hid.
  induction t as [| hd t IH]; simpl; intros Hnd Hin.
  - contradiction.
  - inversion Hnd as [| k ks Hnin Hnd']; subst.
    destruct (String.eqb_spec (pk hd) (pk row)) as [Heq | Hne].
    + destruct Hin as [Hhd | Htl].
      * subst hd. rewrite Hid. reflexivity.
      * exfalso. apply Hnin. rewrite Heq. apply in_map. exact Htl.
    + destruct Hin as [Hhd | Htl].
      * subst hd. contradiction.
      * rewrite IH by assumption. reflexivity.
Qed.
End Table.
End SqlFacts.

(** ** The credential manager *)
Section Credentials.
Variable validate : string -> string -> option string.

Lemma add_token_accepted tok ref uid w :
  validate tok ref = Some uid ->
  Bot.add_token validate tok ref w = (Ok uid, after_add_token uid tok ref w).
Proof.
  intros Hv. unfold Bot.add_token, Bot.super_add_token, bind. rewrite Hv.
  reflexivity.
Qed.

Lemma add_token_rejected tok ref w :
  validate tok ref = None ->
  Bot.add_token validate tok ref w = (Raise InvalidTokenException, w).
Proof.
  intros Hv. unfold Bot.add_token, Bot.super_add_token, bind. rewrite Hv.
  reflexivity.
Qed.

Lemma after_add_token_unique uid tok ref w :
  Sql.unique_keys user_id (tokens w) ->
  Sql.unique_keys user_id (tokens (after_add_token uid tok ref w)).
Proof.
  intros Hu. simpl. apply SqlFacts.upsert_unique_keys; [| exact Hu].
  reflexivity.
Qed.

(** The loop of [load_tokens] over rows that all validate: it returns,
    and the session manager has received exactly those rows. *)
Lemma load_loop_accepted rows : forall w,
  (forall row, In row rows -> validate (token row) (refresh row) <> None) ->
  exists w',
    for_each rows
      (fun row => _ <- Bot.add_token validate (token row) (refresh row) ;; ret tt) w
    = (Ok tt, w')
    /\ managed w' = managed w ++ accepted validate rows
    /\ responses w' = responses w /\ sent w' = sent w.
Proof.
  induction rows as [| row rows IH]; intros w Hall; simpl.
  - exists w. rewrite app_nil_r. repeat split; reflexivity.
  - destruct (validate (token row) (refresh row)) as [uid |] eqn:Hv.
    2:{ exfalso. apply (Hall row); [left; reflexivity | exact Hv]. }
    destruct (IH (after_add_token uid (token row) (refresh row) w))
      as (w' & Hrun & Hm & Hr & Hs).
    { intros r Hr. apply Hall. right. exact Hr. }
    exists w'. split; [| split; [| split]].
    + unfold bind at 1. unfold bind at 1.
      rewrite (add_token_accepted _ _ uid) by exact Hv. exact Hrun.
    + rewrite Hm. simpl. rewrite <- app_assoc. reflexivity.
    + rewrite Hr. reflexivity.
    + rewrite Hs. reflexivity.
Qed.

(** The same loop over rows of the table that validate to their own
    stored id: every write puts back what is there. *)
Lemma load_loop_stored rows : forall w,
  Sql.unique_keys user_id (tokens w) ->
  (forall row, In row rows ->
     In row (tokens w) /\ validate (token row) (refresh row) = Some (user_id row)) ->
  exists w',
    for_each rows
      (fun row => _ <- Bot.add_token validate (token row) (refresh row) ;; ret tt) w
    = (Ok tt, w')
    /\ tokens w' = tokens w
    /\ managed w' = managed w ++ rows.
Proof.
  induction rows as [| row rows IH]; intros w Hu Hall; simpl.
  - exists w. rewrite app_nil_r. repeat split; reflexivity.
  - destruct (Hall row (or_introl eq_refl)) as [Hin Hv].
    assert (Hsame : tokens (after_add_token (user_id row) (token row) (refresh row) w)
                    = tokens w).
    { simpl. destruct row as [u t r]. simpl in *.
      apply SqlFacts.upsert_stored; [reflexivity | exact Hu | exact Hin]. }
    destruct (IH (after_add_token (user_id row) (token row) (refresh row) w))
      as (w' & Hrun & Ht & Hm).
    { rewrite Hsame. exact Hu. }
    { intros r Hr. rewrite Hsame. apply Hall. right. exact Hr. }
    exists w'. split; [| split].
    + unfold bind at 1. unfold bind at 1.
      rewrite (add_token_accepted _ _ (user_id row)) by exact Hv. exact Hrun.
    + rewrite Ht. exact Hsame.
    + rewrite Hm. simpl. rewrite <- app_assoc. destruct row; reflexivity.
Qed.

(** C4 (as the code has it): [load_tokens] has no handler around
    [add_token].  When the platform rejects a stored pair, the exception
    leaves [load_tokens] at that row: the rows fetched before it have
    been validated and handed to the session manager, the rejected row
    and every row after it have not, and the response table and the chat
    are untouched. *)
Theorem load_tokens_stops_at_rejected w before bad rest :
  tokens w = before ++ bad :: rest ->
  (forall row, In row before -> validate (token row) (refresh row) <> None) ->
  validate (token bad) (refresh bad) = None ->
  exists w',
    Bot.load_tokens validate None w = (Raise InvalidTokenException, w')
    /\ managed w' = managed w ++ accepted validate before
    /\ responses w' = responses w /\ sent w' = sent w.
Proof.
  intros Hrows Hbefore Hbad.
  destruct (load_loop_accepted before w Hbefore) as (w1 & Hrun & Hm & Hr & Hs).
  exists w1. split; [| auto].
  unfold Bot.load_tokens, Bot.tokens_fetchall. unfold bind at 1.
  rewrite Hrows, for_each_app.
  rewrite (bind_ok _ _ w tt w1) by exact Hrun.
  simpl. unfold bind at 1. unfold bind at 1.
  rewrite add_token_rejected by exact Hbad. reflexivity.
Qed.

(** C5: two [add_token] calls whose pairs validate to the same user id
    both return that id and leave exactly one row under it, holding the
    access and refresh token of the second call. *)
Theorem add_token_twice_last_wins tok1 ref1 tok2 ref2 uid w :
  Sql.unique_keys user_id (tokens w) ->
  validate tok1 ref1 = Some uid ->
  validate tok2 ref2 = Some uid ->
  exists w1 w2,
    Bot.add_token validate tok1 ref1 w = (Ok uid, w1)
    /\ Bot.add_token validate tok2 ref2 w1 = (Ok uid, w2)
    /\ Sql.select_where user_id uid (tokens w2) = [TokenRow uid tok2 ref2]
    /\ Sql.unique_keys user_id (tokens w2).
Proof.
  intros Hu H1 H2.
  exists (after_add_token uid tok1 ref1 w).
  exists (after_add_token uid tok2 ref2 (after_add_token uid tok1 ref1 w)).
  split; [apply add_token_accepted; exact H1 |].
  split; [apply add_token_accepted; exact H2 |].
  pose proof (after_add_token_unique uid tok1 ref1 w Hu) as Hu1.
  split; [| apply after_add_token_unique; exact Hu1].
  unfold after_add_token at 1. simpl tokens.
  apply (SqlFacts.select_where_upsert user_id _ (TokenRow uid tok2 ref2)).
  - intros [u t r]. simpl. intros ->. reflexivity.
  - exact Hu1.
Qed.

(** C6: when the platform rejects the pair, [add_token] raises the
    validation error and the world, the tokens table included, is as it
    was before the call. *)
Theorem add_token_rejected_nothing_stored tok ref w :
  validate tok ref = None ->
  Bot.add_token validate tok ref w = (Raise InvalidTokenException, w)
  /\ tokens (snd (Bot.add_token validate tok ref w)) = tokens w.
Proof.
  intros Hv. rewrite add_token_rejected by exact Hv. split; reflexivity.
Qed.

(** The loop of [load_tokens] over rows that all validate writes each of
    them into the table, under the id its pair validates to. *)
Lemma load_loop_written rows : forall w,
  all_accepted validate rows = true ->
  exists w',
    for_each rows
      (fun row => _ <- Bot.add_token validate (token row) (refresh row) ;; ret tt) w
    = (Ok tt, w')
    /\ tokens w' = written_back validate rows (tokens w)
    /\ managed w' = managed w ++ accepted validate rows.
Proof.
  induction rows as [| row rows IH]; intros w Hall; simpl.
  - exists w. rewrite app_nil_r. repeat split; reflexivity.
  - simpl in Hall. unfold written_back. simpl fold_left.
    destruct (validate (token row) (refresh row)) as [uid |] eqn:Hv;
      [| discriminate Hall].
    destruct (IH (after_add_token uid (token row) (refresh row) w) Hall)
      as (w' & Hrun & Ht & Hm).
    exists w'. split; [| split].
    + unfold bind at 1. unfold bind at 1.
      rewrite (add_token_accepted _ _ uid) by exact Hv. exact Hrun.
    + rewrite Ht. reflexivity.
    + rewrite Hm. simpl. rewrite <- app_assoc. reflexivity.
Qed.

(** C10: [load_tokens] is no pure read.  When the platform accepts every
    stored pair, the reload returns, every stored row has been handed to
    the session manager, and the tokens table is the old table with every
    stored row upserted into it under the user id its pair validates to;
    for some platform and table this is another table than before.  When
    each stored pair validates to its own stored user id, these writes put
    back what is there: the tokens table after the reload is the table
    before it. *)
Theorem load_tokens_writes_back_identity w :
  (all_accepted validate (tokens w) = true ->
   exists w',
     Bot.load_tokens validate None w = (Ok tt, w')
     /\ tokens w' = written_back validate (tokens w) (tokens w)
     /\ managed w' = managed w ++ accepted validate (tokens w))
  /\ (Sql.unique_keys user_id (tokens w) ->
      (forall row, In row (tokens w) ->
         validate (token row) (refresh row) = Some (user_id row)) ->
      exists w',
        Bot.load_tokens validate None w = (Ok tt, w')
        /\ tokens w' = tokens w
        /\ managed w' = managed w ++ tokens w)
  /\ (exists upstream w0,
        fst (Bot.load_tokens upstream None w0) = Ok tt
        /\ tokens (snd (Bot.load_tokens upstream None w0)) <> tokens w0).
Proof.
  split; [| split].
  - intros Hall.
    destruct (load_loop_written (tokens w) w Hall) as (w' & Hrun & Ht & Hm).
    exists w'. split; [| split; assumption].
    unfold Bot.load_tokens, Bot.tokens_fetchall. unfold bind at 1. exact Hrun.
  - intros Hu Hall.
    destruct (load_loop_stored (tokens w) w Hu) as (w' & Hrun & Ht & Hm).
    { intros row Hin. split; [exact Hin | apply Hall; exact Hin]. }
    exists w'. split; [| split; assumption].
    unfold Bot.load_tokens, Bot.tokens_fetchall. unfold bind at 1. exact Hrun.
  - exists one_live_token, (MkWorld [TokenRow "9" "live" "r9"] [] [] [] []).
    split; [reflexivity |]. simpl. discriminate.
Qed.
End Credentials.

(** ** The response store *)

(** [connection.execute] refuses the two-piece query text before it runs
    any of it, so [add_response] raises with the world as it was. *)
Lemma add_response_raises command response w :
  Bot.add_response command response w = (Raise ProgrammingError, w).
Proof. reflexivity. Qed.

Lemma load_responses_outcome path w :
  Bot.load_responses path w =
  (match responses w with [] => Ok tt | _ :: _ => Raise ProgrammingError end, w).
Proof.
  unfold Bot.load_responses, Bot.responses_fetchall. unfold bind at 1.
  destruct (responses w) as [| row rows]; reflexivity.
Qed.

(** [split(' ', 1)] gives one piece or two. *)
Lemma split_space_once_pieces s :
  (exists a, split_space_once s = [a]) \/
  (exists a b, split_space_once s = [a; b]).
Proof.
  induction s as [| c s IH]; simpl.
  - left. eexists. reflexivity.
  - destruct (Ascii.eqb c " "%char).
    + right. do 2 eexists. reflexivity.
    + destruct IH as [[a ->] | [a [b ->]]].
      * left. eexists. reflexivity.
      * right. do 2 eexists. reflexivity.
Qed.

Lemma addcommand_one_piece ctx content a w :
  split_space_once content = [a] ->
  MyComponent.addcommand ctx content w = (Raise IndexError, w).
Proof. intros H. unfold MyComponent.addcommand. rewrite H. reflexivity. Qed.

Lemma addcommand_two_pieces ctx content a b w :
  split_space_once content = [a; b] ->
  MyComponent.addcommand ctx content w =
  (Ok tt, add_sent (Send "Failed to add command! :(")
            (add_log (Warning ProgrammingError) w)).
Proof. intros H. unfold MyComponent.addcommand. rewrite H. reflexivity. Qed.

(** C1 (the code at the failing input): with [foo -> baz] stored, two calls
    of [add_response "foo" "bar"] both raise and the row under [foo] still
    reads [baz]; on the empty table they leave no row at all.  Even the
    INSERT of the query text, run alone, keeps [baz]: its SET clause
    assigns the command column only. *)
Theorem add_response_twice_foo_bar :
  let w1 := snd (Bot.add_response "foo" "bar" foo_baz_world) in
  let w2 := snd (Bot.add_response "foo" "bar" w1) in
  let e1 := snd (Bot.add_response "foo" "bar" empty_world) in
  let e2 := snd (Bot.add_response "foo" "bar" e1) in
  fst (Bot.add_response "foo" "bar" foo_baz_world) = Raise ProgrammingError
  /\ fst (Bot.add_response "foo" "bar" w1) = Raise ProgrammingError
  /\ Sql.select_where command "foo" (responses w2) = [ResponseRow "foo" "baz"]
  /\ Sql.select_where command "foo" (responses e2) = []
  /\ Sql.execute command (firstn 1 Bot.add_response_query)
       (ResponseRow "foo" "bar") (responses foo_baz_world)
     = Ok [ResponseRow "foo" "baz"].
Proof. repeat split. Qed.

(** C2: on its success path, once the database call has completed,
    [add_response] logs and then raises [NameError] for the unbound [resp];
    when the database call raises, that exception leaves [add_response];
    so [add_response] never returns normally, whatever the database call
    does.  Hence [addcommand], once it has a command and a response text to
    pass on, always ends in its [except] branch and sends the failure
    message, and every normal return of [addcommand] has sent it. *)
Theorem add_response_never_returns :
  (forall db_call w w1,
      db_call w = (Ok tt, w1) ->
      Bot.add_response_around db_call w
      = (Raise (NameError "resp"), add_log (Info "Added new command") w1))
  /\ (forall db_call e w w1,
         db_call w = (Raise e, w1) ->
         Bot.add_response_around db_call w = (Raise e, w1))
  /\ (forall db_call w,
         is_ok (fst (Bot.add_response_around db_call w)) = false)
  /\ (forall command response w,
         is_ok (fst (Bot.add_response command response w)) = false)
  /\ (forall ctx content command response w,
         split_space_once content = [command; response] ->
         exists w',
           MyComponent.addcommand ctx content w = (Ok tt, w')
           /\ sent w' = sent w ++ [Send "Failed to add command! :("])
  /\ (forall ctx content w w',
         MyComponent.addcommand ctx content w = (Ok tt, w') ->
         sent w' = sent w ++ [Send "Failed to add command! :("]).
Proof.
  assert (Hnever : forall db_call w,
             is_ok (fst (Bot.add_response_around db_call w)) = false).
  { intros db_call. unfold Bot.add_response_around.
    apply bind_never_returns. intros _ w1.
    apply bind_never_returns. intros _ w2. reflexivity. }
  split; [| split; [| split; [| split; [| split]]]].
  - intros db_call w w1 Hcall. unfold Bot.add_response_around.
    rewrite (bind_ok _ _ w tt w1) by exact Hcall. reflexivity.
  - intros db_call e w w1 Hcall. unfold Bot.add_response_around.
    unfold bind at 1. rewrite Hcall. reflexivity.
  - exact Hnever.
  - intros command response w. unfold Bot.add_response. apply Hnever.
  - intros ctx content command response w H. eexists. split.
    + apply (addcommand_two_pieces _ _ command response). exact H.
    + reflexivity.
  - intros ctx content w w' Hrun.
    destruct (split_space_once_pieces content) as [[a H] | [a [b H]]].
    + rewrite (addcommand_one_piece _ _ a) in Hrun by exact H. discriminate.
    + rewrite (addcommand_two_pieces _ _ a b) in Hrun by exact H.
      inversion Hrun. reflexivity.
Qed.

(** C9 (as the code has it): [load_responses] fetches the rows of the
    response table once.  With no stored row it returns normally and
    changes nothing; otherwise it calls [add_response] with the command
    and response of the first row, with no handler around the call, so an
    exception of that call leaves [load_responses] with the world as the
    call left it and the later rows are not processed.  The table is left
    as it was, no row added, dropped or altered.  The bot keeps no lookup
    table in memory: after the reload a message [!name] whose name is no
    built-in command still gets no reply. *)
Theorem load_responses_keeps_table path w :
  let w' := snd (Bot.load_responses path w) in
  (responses w = [] -> Bot.load_responses path w = (Ok tt, w))
  /\ (forall row rest e w1,
         responses w = row :: rest ->
         Bot.add_response (command row) (response row) w = (Raise e, w1) ->
         Bot.load_responses path w = (Raise e, w1))
  /\ responses w' = responses w
  /\ forall ctx name content,
       MyComponent.commands name = None ->
       sent (snd (MyComponent.process_commands ctx name content w')) = sent w.
Proof.
  split; [| split].
  - intros Hrows.
    unfold Bot.load_responses, Bot.responses_fetchall. unfold bind at 1.
    rewrite Hrows. reflexivity.
  - intros row rest e w1 Hrows Hcall.
    unfold Bot.load_responses, Bot.responses_fetchall. unfold bind at 1.
    rewrite Hrows. simpl for_each. unfold bind at 1.
    rewrite Hcall. reflexivity.
  - rewrite load_responses_outcome. simpl. split; [reflexivity |].
    intros ctx name content Hname.
    unfold MyComponent.process_commands, MyComponent.invoke, try_except.
    rewrite Hname. reflexivity.
Qed.

(** ** The command router *)

Lemma process_unknown ctx name content w :
  MyComponent.commands name = None ->
  MyComponent.process_commands ctx name content w
  = (Ok tt, add_log (Error (CommandNotFound name)) w).
Proof.
  intros Hname.
  unfold MyComponent.process_commands, MyComponent.invoke, try_except.
  rewrite Hname. reflexivity.
Qed.

Lemma process_addcommand_guarded ctx content w :
  MyComponent.is_elevated ctx = false ->
  MyComponent.process_commands ctx "addcommand" content w
  = (Ok tt, add_log (Error GuardFailure) w).
Proof.
  intros Hg.
  unfold MyComponent.process_commands, MyComponent.invoke, try_except.
  change (MyComponent.commands "addcommand") with (Some MyComponent.Addcommand).
  cbv iota. rewrite Hg. reflexivity.
Qed.


(** C7 (as the code has it): when the argument of [addcommand] has no
    space, so that there is a command name and no response text, the
    handler raises [IndexError] before it calls [add_response]; whoever
    sent the message, no row is created or changed, and nothing is said in
    chat: the message is rejected in the log only. *)
Theorem addcommand_without_response_text ctx content w :
  split_space_once content = [content] ->
  MyComponent.addcommand ctx content w = (Raise IndexError, w)
  /\ responses (snd (MyComponent.process_commands ctx "addcommand" content w))
     = responses w
  /\ sent (snd (MyComponent.process_commands ctx "addcommand" content w))
     = sent w.
Proof.
  intros H. split; [apply (addcommand_one_piece _ _ content); exact H |].
  unfold MyComponent.process_commands, MyComponent.invoke, try_except.
  change (MyComponent.commands "addcommand") with (Some MyComponent.Addcommand).
  cbv iota.
  destruct (MyComponent.is_elevated ctx); [| split; reflexivity].
  destruct (content =? ""); [split; reflexivity |].
  rewrite (addcommand_one_piece _ _ content) by exact H. split; reflexivity.
Qed.

(** C8 (as the code has it): for a chatter who is not elevated the guard
    stops [addcommand] before its body: the response table and every other
    table are as before, the framework logs the [GuardFailure], and nothing
    is said in chat. *)
Theorem addcommand_guard_blocks ctx content w :
  MyComponent.is_elevated ctx = false ->
  let w' := snd (MyComponent.process_commands ctx "addcommand" content w) in
  fst (MyComponent.process_commands ctx "addcommand" content w) = Ok tt
  /\ responses w' = responses w
  /\ tokens w' = tokens w
  /\ sent w' = sent w
  /\ log w' = log w ++ [Error GuardFailure].
Proof.
  intros Hg. rewrite process_addcommand_guarded by exact Hg.
  repeat split.
Qed.

(** ** The statements of the specification that the code does not meet *)


(** C4, as stated, at a concrete input: of two stored credentials the
    first is rejected upstream and the second is live; the reload raises
    at the first and the second is never handed to the session manager. *)
Lemma load_tokens_one_bad_aborts :
  let w := MkWorld [TokenRow "1" "revoked" "r1"; TokenRow "2" "live" "r2"]
                   [] [] [] [] in
  one_live_token "revoked" "r1" = None
  /\ one_live_token "live" "r2" = Some "2"
  /\ Bot.load_tokens one_live_token None w = (Raise InvalidTokenException, w)
  /\ ~ In (TokenRow "2" "live" "r2")
          (managed (snd (Bot.load_tokens one_live_token None w))).
Proof.
  repeat split. simpl. intros [].
Qed.

(** C7, as stated, at a concrete input: a moderator sends
    [!addcommand foo]; no row [foo] appears, and no error is said in chat
    either. *)
Lemma addcommand_foo_no_reply :
  MyComponent.process_commands (moderator_ctx "!addcommand foo") "addcommand" "foo"
    empty_world
  = (Ok tt, add_log (Error IndexError) empty_world)
  /\ sent (snd (MyComponent.process_commands (moderator_ctx "!addcommand foo")
                  "addcommand" "foo" empty_world))
     = [].
Proof. split; reflexivity. Qed.

(** C8, as stated, at a concrete input: a plain viewer sends
    [!addcommand foo bar]; the table stays empty and the viewer is sent no
    denial. *)
Lemma viewer_addcommand_no_denial :
  MyComponent.is_elevated (viewer_ctx "!addcommand foo bar") = false
  /\ responses (snd (MyComponent.process_commands (viewer_ctx "!addcommand foo bar")
                       "addcommand" "foo bar" empty_world))
     = []
  /\ sent (snd (MyComponent.process_commands (viewer_ctx "!addcommand foo bar")
                  "addcommand" "foo bar" empty_world))
     = [].
Proof. repeat split. Qed.

(** C9, as stated, at a concrete input: with one stored row the reload
    raises at that row, and the stored command is not served afterwards. *)
Lemma load_responses_builds_no_lookup :
  let w' := snd (Bot.load_responses None lurk_world) in
  fst (Bot.load_responses None lurk_world) = Raise ProgrammingError
  /\ sent (snd (MyComponent.process_commands (viewer_ctx "!lurk") "lurk" "" w'))
     = [].
Proof. split; reflexivity. Qed.

(** ** The statements at concrete inputs *)

Lemma add_response_never_returns_witness :
  Bot.responses_execute (firstn 1 Bot.add_response_query) (ResponseRow "foo" "bar")
    empty_world
  = (Ok tt, set_responses [ResponseRow "foo" "bar"] empty_world)
  /\ Bot.add_response_around
       (Bot.responses_execute (firstn 1 Bot.add_response_query)
          (ResponseRow "foo" "bar")) empty_world
     = (Raise (NameError "resp"),
        add_log (Info "Added new command")
          (set_responses [ResponseRow "foo" "bar"] empty_world))
  /\ Bot.add_response_around
       (Bot.responses_execute Bot.add_response_query (ResponseRow "foo" "bar"))
       empty_world
     = (Raise ProgrammingError, empty_world)
  /\ split_space_once "foo bar" = ["foo"; "bar"]
  /\ (exists w',
        MyComponent.addcommand (moderator_ctx "!addcommand foo bar") "foo bar"
          empty_world = (Ok tt, w')
        /\ sent w' = sent empty_world ++ [Send "Failed to add command! :("])
  /\ sent (add_sent (Send "Failed to add command! :(")
             (add_log (Warning ProgrammingError) empty_world))
     = sent empty_world ++ [Send "Failed to add command! :("].
Proof.
  split; [reflexivity |].
  split.
  { apply (proj1 add_response_never_returns
             (Bot.responses_execute (firstn 1 Bot.add_response_query)
                (ResponseRow "foo" "bar"))
             empty_world (set_responses [ResponseRow "foo" "bar"] empty_world)).
    reflexivity. }
  split.
  { apply (proj1 (proj2 add_response_never_returns)
             (Bot.responses_execute Bot.add_response_query (ResponseRow "foo" "bar"))
             ProgrammingError empty_world empty_world).
    reflexivity. }
  split; [reflexivity |].
  split.
  - apply (proj1 (proj2 (proj2 (proj2 (proj2 add_response_never_returns))))
             (moderator_ctx "!addcommand foo bar") "foo bar" "foo" "bar" empty_world).
    reflexivity.
  - apply (proj2 (proj2 (proj2 (proj2 (proj2 add_response_never_returns))))
             (moderator_ctx "!addcommand foo bar") "foo bar" empty_world).
    reflexivity.
Defined.


Lemma load_tokens_stops_at_rejected_witness :
  let w := MkWorld [TokenRow "2" "live" "r2"; TokenRow "1" "revoked" "r1";
                    TokenRow "3" "live" "r3"] [] [] [] [] in
  exists w',
    Bot.load_tokens one_live_token None w = (Raise InvalidTokenException, w')
    /\ managed w' = managed w ++ accepted one_live_token [TokenRow "2" "live" "r2"]
    /\ responses w' = responses w /\ sent w' = sent w.
Proof.
  apply (load_tokens_stops_at_rejected one_live_token
           (MkWorld [TokenRow "2" "live" "r2"; TokenRow "1" "revoked" "r1";
                     TokenRow "3" "live" "r3"] [] [] [] [])
           [TokenRow "2" "live" "r2"] (TokenRow "1" "revoked" "r1")
           [TokenRow "3" "live" "r3"]).
  - reflexivity.
  - intros row [<- | []]. simpl. discriminate.
  - reflexivity.
Defined.

Lemma add_token_twice_last_wins_witness :
  exists w1 w2,
    Bot.add_token rotating_user "old" "r-old" empty_world = (Ok "7", w1)
    /\ Bot.add_token rotating_user "new" "r-new" w1 = (Ok "7", w2)
    /\ Sql.select_where user_id "7" (tokens w2) = [TokenRow "7" "new" "r-new"]
    /\ Sql.unique_keys user_id (tokens w2).
Proof.
  apply (add_token_twice_last_wins rotating_user "old" "r-old" "new" "r-new" "7"
           empty_world).
  - constructor.
  - reflexivity.
  - reflexivity.
Defined.

Lemma add_token_rejected_nothing_stored_witness :
  one_live_token "revoked" "r1" = None
  /\ Bot.add_token one_live_token "revoked" "r1" foo_baz_world
     = (Raise InvalidTokenException, foo_baz_world)
  /\ tokens (snd (Bot.add_token one_live_token "revoked" "r1" foo_baz_world))
     = tokens foo_baz_world.
Proof.
  split; [reflexivity |].
  apply (add_token_rejected_nothing_stored one_live_token "revoked" "r1" foo_baz_world).
  reflexivity.
Defined.

Lemma addcommand_without_response_text_witness :
  split_space_once "foo" = ["foo"]
  /\ MyComponent.addcommand (moderator_ctx "!addcommand foo") "foo" empty_world
     = (Raise IndexError, empty_world)
  /\ responses (snd (MyComponent.process_commands (moderator_ctx "!addcommand foo")
                       "addcommand" "foo" empty_world))
     = responses empty_world
  /\ sent (snd (MyComponent.process_commands (moderator_ctx "!addcommand foo")
                  "addcommand" "foo" empty_world))
     = sent empty_world.
Proof.
  split; [reflexivity |].
  apply (addcommand_without_response_text (moderator_ctx "!addcommand foo") "foo"
           empty_world).
  reflexivity.
Defined.

Lemma addcommand_guard_blocks_witness :
  let ctx := viewer_ctx "!addcommand foo bar" in
  let w' := snd (MyComponent.process_commands ctx "addcommand" "foo bar" foo_baz_world) in
  fst (MyComponent.process_commands ctx "addcommand" "foo bar" foo_baz_world) = Ok tt
  /\ responses w' = responses foo_baz_world
  /\ tokens w' = tokens foo_baz_world
  /\ sent w' = sent foo_baz_world
  /\ log w' = log foo_baz_world ++ [Error GuardFailure].
Proof.
  apply (addcommand_guard_blocks (viewer_ctx "!addcommand foo bar") "foo bar"
           foo_baz_world).
  reflexivity.
Defined.

Lemma load_responses_keeps_table_witness :
  Bot.load_responses None empty_world = (Ok tt, empty_world)
  /\ Bot.add_response "lurk" "Thanks for lurking!" lurk_world
     = (Raise ProgrammingError, lurk_world)
  /\ Bot.load_responses None lurk_world = (Raise ProgrammingError, lurk_world)
  /\ MyComponent.commands "lurk" = None
  /\ responses (snd (Bot.load_responses None lurk_world)) = responses lurk_world
  /\ sent (snd (MyComponent.process_commands (viewer_ctx "!lurk") "lurk" ""
                  (snd (Bot.load_responses None lurk_world))))
     = sent lurk_world.
Proof.
  split.
  { apply (proj1 (load_responses_keeps_table None empty_world)). reflexivity. }
  split; [reflexivity |].
  split.
  { apply (proj1 (proj2 (load_responses_keeps_table None lurk_world))
             (ResponseRow "lurk" "Thanks for lurking!") [] ProgrammingError lurk_world);
      reflexivity. }
  split; [reflexivity |].
  split.
  - apply (proj1 (proj2 (proj2 (load_responses_keeps_table None lurk_world)))).
  - apply (proj2 (proj2 (proj2 (load_responses_keeps_table None lurk_world)))
             (viewer_ctx "!lurk") "lurk" "").
    reflexivity.
Defined.

Lemma load_tokens_writes_back_identity_witness :
  (let w := MkWorld [TokenRow "9" "live" "r9"] [] [] [] [] in
   exists w',
     Bot.load_tokens one_live_token None w = (Ok tt, w')
     /\ tokens w' = [TokenRow "9" "live" "r9"; TokenRow "2" "live" "r9"]
     /\ managed w' = [TokenRow "2" "live" "r9"])
  /\ (let w := MkWorld [TokenRow "2" "live" "r2"] [] [] [] [] in
      exists w',
        Bot.load_tokens one_live_token None w = (Ok tt, w')
        /\ tokens w' = tokens w
        /\ managed w' = managed w ++ tokens w).
Proof.
  split.
  - apply (proj1 (load_tokens_writes_back_identity one_live_token
                    (MkWorld [TokenRow "9" "live" "r9"] [] [] [] []))).
    reflexivity.
  - apply (proj1 (proj2 (load_tokens_writes_back_identity one_live_token
                           (MkWorld [TokenRow "2" "live" "r2"] [] [] [] [])))).
    + repeat constructor. intros [].
    + intros row [<- | []]. reflexivity.
Defined.

(** * Further properties of the code *)

(** ** Upserts and the other rows *)
Module SqlFrame.
Section Table.
Context {R : Type}.
Variable pk : R -> string.
Variable do_update : R -> R -> R.
Hypothesis do_update_key :
  forall row excluded, pk row = pk excluded -> pk (do_update row excluded) = pk row.

(** No key disappears in an upsert. *)
Lemma upsert_keeps_keys excluded t k :
  In k (map pk t) -> In k (map pk (Sql.upsert pk do_update excluded t)).
Proof.
  intros Hk.
  destruct (in_dec string_dec (pk excluded) (map pk t)) as [Hin | Hnin].
  - rewrite (SqlFacts.upsert_present_keys pk do_update do_update_key) by exact Hin.
    exact Hk.
  - rewrite SqlFacts.upsert_absent by exact Hnin.
    rewrite map_app. apply in_or_app. left. exact Hk.
Qed.

(** Rows under another key are not touched. *)
Lemma select_where_upsert_other excluded t k :
  k <> pk excluded ->
  Sql.select_where pk k (Sql.upsert pk do_update excluded t)
  = Sql.select_where pk k t.
Proof.
  intros Hk. induction t as [| row t IH]; simpl.
  - destruct (String.eqb_spec (pk excluded) k) as [Heq | Hne].
    + exfalso. apply Hk. symmetry. exact Heq.
    + reflexivity.
  - destruct (String.eqb_spec (pk row) (pk excluded)) as [Heq | Hne]; simpl.
    + rewrite do_update_key by exact Heq.
      destruct (String.eqb_spec (pk row) k) as [Hrk | Hrk].
      * exfalso. apply Hk. rewrite <- Hrk. exact Heq.
      * reflexivity.
    + rewrite IH. reflexivity.
Qed.
End Table.
End SqlFrame.

(** ** [content.split(' ', 1)] *)

(** X7: joining the pieces of [split(' ', 1)] with a space gives the
    content back: nothing of the message is lost or added. *)
Theorem split_space_once_join s :
  String.concat " " (split_space_once s) = s.
Proof.
  induction s as [| c s IH]; simpl.
  - reflexivity.
  - destruct (Ascii.eqb_spec c " "%char) as [Hc | Hc].
    + subst c. reflexivity.
    + destruct (split_space_once_pieces s) as [[a H] | [a [b H]]];
        rewrite H in *; simpl in *; rewrite IH; reflexivity.
Qed.

(** X8: the cut is at the first space: for a command name without a space
    the pieces of [name response] are the name and the whole rest, further
    spaces of the response included. *)
Theorem split_space_once_first_space a b :
  split_space_once a = [a] ->
  split_space_once (a ++ " " ++ b) = [a; b].
Proof.
  induction a as [| c a IH]; simpl in *.
  - intros _. reflexivity.
  - destruct (Ascii.eqb c " "%char).
    + intros H. discriminate.
    + destruct (split_space_once_pieces a) as [[x H] | [x [y H]]];
        rewrite H; intros Hpieces; inversion Hpieces; subst.
      rewrite IH by exact H. reflexivity.
Qed.

Lemma split_space_once_first_space_witness :
  split_space_once "so" = ["so"]
  /\ split_space_once ("so" ++ " " ++ "long and thanks") = ["so"; "long and thanks"].
Proof.
  split; [reflexivity |].
  apply (split_space_once_first_space "so" "long and thanks"). reflexivity.
Defined.

(** ** More on the credential manager *)
Section CredentialsMore.
Variable validate : string -> string -> option string.

Lemma load_step_accepted row rows uid w :
  validate (token row) (refresh row) = Some uid ->
  for_each (row :: rows)
    (fun row => _ <- Bot.add_token validate (token row) (refresh row) ;; ret tt) w
  = for_each rows
      (fun row => _ <- Bot.add_token validate (token row) (refresh row) ;; ret tt)
      (after_add_token uid (token row) (refresh row) w).
Proof.
  intros Hv. simpl. unfold bind at 1. unfold bind at 1.
  rewrite (add_token_accepted validate _ _ uid) by exact Hv. reflexivity.
Qed.

Lemma load_step_rejected row rows w :
  validate (token row) (refresh row) = None ->
  for_each (row :: rows)
    (fun row => _ <- Bot.add_token validate (token row) (refresh row) ;; ret tt) w
  = (Raise InvalidTokenException, w).
Proof.
  intros Hv. simpl. unfold bind at 1. unfold bind at 1.
  rewrite add_token_rejected by exact Hv. reflexivity.
Qed.

Lemma after_add_token_keeps_keys uid tok ref w k :
  In k (map user_id (tokens w)) ->
  In k (map user_id (tokens (after_add_token uid tok ref w))).
Proof.
  intros Hk. simpl. apply SqlFrame.upsert_keeps_keys; [| exact Hk].
  reflexivity.
Qed.

(** What the loop of [load_tokens] keeps, however it ends. *)
Lemma load_loop_invariants rows : forall w,
  let w' := snd (for_each rows
                   (fun row => _ <- Bot.add_token validate (token row) (refresh row) ;;
                               ret tt) w) in
  (Sql.unique_keys user_id (tokens w) -> Sql.unique_keys user_id (tokens w'))
  /\ (forall k, In k (map user_id (tokens w)) -> In k (map user_id (tokens w')))
  /\ responses w' = responses w
  /\ sent w' = sent w.
Proof.
  induction rows as [| row rows IH]; intros w.
  - simpl. repeat split; auto.
  - destruct (validate (token row) (refresh row)) as [uid |] eqn:Hv.
    + rewrite (load_step_accepted row rows uid) by exact Hv.
      destruct (IH (after_add_token uid (token row) (refresh row) w))
        as (Hu & Hk & Hr & Hs).
      split; [| split; [| split]].
      * intros H. apply Hu. apply after_add_token_unique. exact H.
      * intros k H. apply Hk. apply after_add_token_keeps_keys. exact H.
      * rewrite Hr. reflexivity.
      * rewrite Hs. reflexivity.
    + rewrite load_step_rejected by exact Hv. simpl. repeat split; auto.
Qed.

(** X1: [add_token] keeps the PRIMARY KEY of the tokens table: from a
    table with one row per user id it leaves a table with one row per user
    id, whether the platform accepts the pair or not. *)
Theorem add_token_keeps_primary_key tok ref w :
  Sql.unique_keys user_id (tokens w) ->
  Sql.unique_keys user_id (tokens (snd (Bot.add_token validate tok ref w))).
Proof.
  intros Hu. destruct (validate tok ref) as [uid |] eqn:Hv.
  - rewrite (add_token_accepted validate _ _ uid) by exact Hv.
    apply after_add_token_unique. exact Hu.
  - rewrite add_token_rejected by exact Hv. exact Hu.
Qed.

(** X2: [add_token] writes under the validated user id only: the rows
    stored under any other id are the same after the call. *)
Theorem add_token_other_users_untouched tok ref k w :
  validate tok ref <> Some k ->
  Sql.select_where user_id k (tokens (snd (Bot.add_token validate tok ref w)))
  = Sql.select_where user_id k (tokens w).
Proof.
  intros Hk. destruct (validate tok ref) as [uid |] eqn:Hv.
  - rewrite (add_token_accepted validate _ _ uid) by exact Hv. simpl.
    apply SqlFrame.select_where_upsert_other.
    + reflexivity.
    + simpl. intros ->. apply Hk. reflexivity.
  - rewrite add_token_rejected by exact Hv. reflexivity.
Qed.

(** X3: a pair the platform accepts is stored and handed on: [add_token]
    returns the validated user id, the one row under that id holds the
    pair, the session manager has received the same row last, and the
    response table and the chat are untouched. *)
Theorem add_token_stores_pair tok ref uid w :
  Sql.unique_keys user_id (tokens w) ->
  validate tok ref = Some uid ->
  let w' := snd (Bot.add_token validate tok ref w) in
  fst (Bot.add_token validate tok ref w) = Ok uid
  /\ Sql.select_where user_id uid (tokens w') = [TokenRow uid tok ref]
  /\ managed w' = managed w ++ [TokenRow uid tok ref]
  /\ responses w' = responses w
  /\ sent w' = sent w.
Proof.
  intros Hu Hv. rewrite (add_token_accepted validate _ _ uid) by exact Hv.
  simpl. split; [reflexivity |]. split; [| repeat split].
  apply (SqlFacts.select_where_upsert user_id _ (TokenRow uid tok ref)).
  - intros [u t r]. simpl. intros ->. reflexivity.
  - exact Hu.
Qed.

Lemma load_loop_returns rows : forall w,
  is_ok (fst (for_each rows
                (fun row => _ <- Bot.add_token validate (token row) (refresh row) ;;
                            ret tt) w))
  = all_accepted validate rows.
Proof.
  induction rows as [| row rows IH]; intros w.
  - reflexivity.
  - simpl all_accepted.
    destruct (validate (token row) (refresh row)) as [uid |] eqn:Hv.
    + rewrite (load_step_accepted row rows uid) by exact Hv. apply IH.
    + rewrite load_step_rejected by exact Hv. reflexivity.
Qed.

(** X4: [load_tokens] returns normally exactly when the platform accepts
    every stored pair; one rejected pair anywhere in the table makes the
    reload raise. *)
Theorem load_tokens_returns_iff_all_accepted path w :
  is_ok (fst (Bot.load_tokens validate path w)) = all_accepted validate (tokens w).
Proof.
  unfold Bot.load_tokens, Bot.tokens_fetchall. unfold bind at 1.
  apply load_loop_returns.
Qed.

(** X5: the reload keeps the PRIMARY KEY of the tokens table, however it
    ends and whatever ids the platform validates the stored pairs to. *)
Theorem load_tokens_keeps_primary_key path w :
  Sql.unique_keys user_id (tokens w) ->
  Sql.unique_keys user_id (tokens (snd (Bot.load_tokens validate path w))).
Proof.
  unfold Bot.load_tokens, Bot.tokens_fetchall. unfold bind at 1.
  apply (load_loop_invariants (tokens w) w).
Qed.

(** X6: the reload deletes no credential: a user id stored before
    [load_tokens] is stored after it, however the reload ends. *)
Theorem load_tokens_never_deletes path k w :
  In k (map user_id (tokens w)) ->
  In k (map user_id (tokens (snd (Bot.load_tokens validate path w)))).
Proof.
  unfold Bot.load_tokens, Bot.tokens_fetchall. unfold bind at 1.
  apply (load_loop_invariants (tokens w) w).
Qed.

(** X9: the credential reload stays in its own table: the response table
    and the chat are the same after [load_tokens], however it ends. *)
Theorem load_tokens_leaves_responses_and_chat path w :
  responses (snd (Bot.load_tokens validate path w)) = responses w
  /\ sent (snd (Bot.load_tokens validate path w)) = sent w.
Proof.
  unfold Bot.load_tokens, Bot.tokens_fetchall. unfold bind at 1.
  split; apply (load_loop_invariants (tokens w) w).
Qed.
End CredentialsMore.

(** ** More on the response store and the commands *)

(** X10: [add_response] stores nothing: for every command and response
    text the call raises and the whole world, response table included, is
    as it was before the call. *)
Theorem add_response_stores_nothing command response w :
  is_ok (fst (Bot.add_response command response w)) = false
  /\ snd (Bot.add_response command response w) = w.
Proof.
  unfold Bot.add_response, Bot.add_response_around, Bot.responses_execute.
  unfold bind at 1. simpl Sql.execute. split; reflexivity.
Qed.

(** X11: [load_responses] returns normally exactly when the response table
    is empty; with any stored row it raises, and in both cases the world is
    as it was. *)
Theorem load_responses_returns_iff_empty path w :
  (is_ok (fst (Bot.load_responses path w)) = true <-> responses w = [])
  /\ snd (Bot.load_responses path w) = w.
Proof.
  rewrite load_responses_outcome. simpl. split; [| reflexivity].
  destruct (responses w) as [| row rows]; simpl; split; intros H;
    try reflexivity; discriminate H.
Qed.

(** X12: no chat command writes to a database: whatever the name, the
    argument and the chatter, both tables and the pairs of the session
    manager are the same after [process_commands]. *)
Theorem chat_commands_never_write ctx name content w :
  let w' := snd (MyComponent.process_commands ctx name content w) in
  responses w' = responses w /\ tokens w' = tokens w /\ managed w' = managed w.
Proof.
  unfold MyComponent.process_commands, MyComponent.invoke, try_except.
  destruct (MyComponent.commands name) as [[ | | ] |];
    try (repeat split; reflexivity).
  destruct (MyComponent.is_elevated ctx); [| repeat split; reflexivity].
  destruct (content =? ""); [repeat split; reflexivity |].
  destruct (split_space_once_pieces content) as [[a H] | [a [b H]]].
  - rewrite (addcommand_one_piece _ _ a) by exact H. repeat split; reflexivity.
  - rewrite (addcommand_two_pieces _ _ a b) by exact H. repeat split; reflexivity.
Qed.

(** X13: a chat command ends without an exception reaching the caller and
    says at most one thing: the chat after [process_commands] is the chat
    before it, or that with one message more. *)
Theorem chat_commands_say_at_most_one_thing ctx name content w :
  let w' := snd (MyComponent.process_commands ctx name content w) in
  fst (MyComponent.process_commands ctx name content w) = Ok tt
  /\ (sent w' = sent w \/ exists m, sent w' = sent w ++ [m]).
Proof.
  unfold MyComponent.process_commands, MyComponent.invoke, try_except.
  destruct (MyComponent.commands name) as [[ | | ] |].
  - split; [reflexivity |]. right. eexists. reflexivity.
  - split; [reflexivity |]. right. eexists. reflexivity.
  - destruct (MyComponent.is_elevated ctx); [| split; [| left]; reflexivity].
    destruct (content =? ""); [split; [| left]; reflexivity |].
    destruct (split_space_once_pieces content) as [[a H] | [a [b H]]].
    + rewrite (addcommand_one_piece _ _ a) by exact H.
      split; [| left]; reflexivity.
    + rewrite (addcommand_two_pieces _ _ a b) by exact H.
      split; [reflexivity |]. right. eexists. reflexivity.
  - split; [| left]; reflexivity.
Qed.

(** ** The set-up of the database files *)


(** ** The further statements at concrete inputs *)

Lemma add_token_keeps_primary_key_witness :
  Sql.unique_keys user_id
    (tokens (snd (Bot.add_token one_live_token "live" "r2"
                    (MkWorld [TokenRow "2" "live" "r1"] [] [] [] [])))).
Proof.
  apply (add_token_keeps_primary_key one_live_token "live" "r2"
           (MkWorld [TokenRow "2" "live" "r1"] [] [] [] [])).
  repeat constructor. intros [].
Defined.

Lemma add_token_other_users_untouched_witness :
  Sql.select_where user_id "1"
    (tokens (snd (Bot.add_token one_live_token "live" "r2"
                    (MkWorld [TokenRow "1" "revoked" "r1"] [] [] [] []))))
  = Sql.select_where user_id "1" [TokenRow "1" "revoked" "r1"].
Proof.
  apply (add_token_other_users_untouched one_live_token "live" "r2" "1"
           (MkWorld [TokenRow "1" "revoked" "r1"] [] [] [] [])).
  cbv. discriminate.
Defined.

Lemma add_token_stores_pair_witness :
  let w := MkWorld [TokenRow "2" "live" "r1"] [] [] [] [] in
  let w' := snd (Bot.add_token one_live_token "live" "r2" w) in
  fst (Bot.add_token one_live_token "live" "r2" w) = Ok "2"
  /\ Sql.select_where user_id "2" (tokens w') = [TokenRow "2" "live" "r2"]
  /\ managed w' = managed w ++ [TokenRow "2" "live" "r2"]
  /\ responses w' = responses w
  /\ sent w' = sent w.
Proof.
  apply (add_token_stores_pair one_live_token "live" "r2" "2"
           (MkWorld [TokenRow "2" "live" "r1"] [] [] [] [])).
  - repeat constructor. intros [].
  - reflexivity.
Defined.

Lemma load_tokens_keeps_primary_key_witness :
  Sql.unique_keys user_id
    (tokens (snd (Bot.load_tokens one_live_token None
                    (MkWorld [TokenRow "9" "live" "r9"] [] [] [] [])))).
Proof.
  apply (load_tokens_keeps_primary_key one_live_token None
           (MkWorld [TokenRow "9" "live" "r9"] [] [] [] [])).
  repeat constructor. intros [].
Defined.

Lemma load_tokens_never_deletes_witness :
  In "9" (map user_id
            (tokens (snd (Bot.load_tokens one_live_token None
                            (MkWorld [TokenRow "9" "live" "r9"] [] [] [] []))))).
Proof.
  apply (load_tokens_never_deletes one_live_token None "9"
           (MkWorld [TokenRow "9" "live" "r9"] [] [] [] [])).
  left. reflexivity.
Defined.

Lemma load_responses_returns_iff_empty_witness :
  is_ok (fst (Bot.load_responses None empty_world)) = true
  /\ responses lurk_world <> [].
Proof.
  split.
  - apply (proj2 (proj1 (load_responses_returns_iff_empty None empty_world))).
    reflexivity.
  - intros H.
    pose proof (proj2 (proj1 (load_responses_returns_iff_empty None lurk_world)) H)
      as Hok.
    discriminate Hok.
Defined.
